(** * Stopwatch: a shallow embedding of [src/components/Stopwatch.tsx]

    The component keeps three pieces of React state ([time], [isRunning],
    [lapTimes]) and one mutable ref ([intervalRef]) that stores the handle
    returned by [setInterval].  The host's table of live intervals is part
    of the modelled state, because the handlers create and clear entries
    in it and several properties are about which intervals are still
    alive.

    Conventions.
    - A JavaScript [number] holding an integer is a [Z]; this is exact for
      every safe integer (below 2^53), which covers any elapsed time a
      running stopwatch can accumulate.
    - [Math.floor (a / b)] on integers with [b > 0] is [Z.div]; the
      operator [%] keeps the sign of the dividend and is [Z.rem].
    - A handler runs against the state of the last committed render.
      React commits the updates of one UI event before the next event is
      dispatched, so the values captured by a handler's closure are the
      current ones. *)

From Stdlib Require Import ZArith List String Ascii Bool Lia Sorted.
From Stdlib Require Import DecimalString DecimalZ DecimalPos.
Import ListNotations.

Local Open Scope Z_scope.
Local Open Scope string_scope.

(** ** Strings: [toString] and [padStart] *)

Module JsString.

(** [Number.prototype.toString] on an integer: its decimal numeral,
    with a leading minus sign below zero. *)
Definition toString (n : Z) : string :=
  NilZero.string_of_int (Z.to_int n).

Fixpoint repeat_char (c : ascii) (k : nat) : string :=
  match k with
  | O => EmptyString
  | S k' => String c (repeat_char c k')
  end.

(** [String.prototype.padStart] with a one-character filler: strings
    already [targetLength] long or longer come back untouched. *)
Definition padStart (targetLength : nat) (c : ascii) (s : string) : string :=
  repeat_char c (targetLength - String.length s) ++ s.

Definition is_digit (c : ascii) : bool :=
  let n := nat_of_ascii c in (48 <=? n)%nat && (n <=? 57)%nat.

Fixpoint all_digits (s : string) : bool :=
  match s with
  | EmptyString => true
  | String c r => is_digit c && all_digits r
  end.

(** Reading a numeral back, most significant digit first. *)
Fixpoint value_from (acc : Z) (s : string) : Z :=
  match s with
  | EmptyString => acc
  | String c r => value_from (10 * acc + (Z.of_nat (nat_of_ascii c) - 48)) r
  end.

Definition value (s : string) : Z := value_from 0 s.

End JsString.

Import JsString.

(** ** The formatter *)

(** [formatTime], lines 23-31 of the source. *)
Definition formatTime (totalMilliseconds : Z) : string :=
  let minutes := totalMilliseconds / 60000 in
  let seconds := Z.rem totalMilliseconds 60000 / 1000 in
  let milliseconds := Z.rem totalMilliseconds 1000 / 10 in
  padStart 2 "0" (toString minutes) ++ ":" ++
  padStart 2 "0" (toString seconds) ++ ":" ++
  padStart 2 "0" (toString milliseconds).

(** A recogniser for the pattern [\d{2,}:\d{2}:\d{2}], anchored at both
    ends: the text is cut at its first colon, the part before it must be
    two or more digits, and the rest must be [dd:dd]. *)
Fixpoint split_colon (s : string) : option (string * string) :=
  match s with
  | EmptyString => None
  | String c r =>
      if Ascii.eqb c ":" then Some (EmptyString, r)
      else match split_colon r with
           | Some (a, b) => Some (String c a, b)
           | None => None
           end
  end.

Definition matches_clock (s : string) : bool :=
  match split_colon s with
  | Some (mm, rest) =>
      all_digits mm && (2 <=? String.length mm)%nat &&
      match rest with
      | String a (String b (String c (String d (String e EmptyString)))) =>
          is_digit a && is_digit b && Ascii.eqb c ":" && is_digit d && is_digit e
      | _ => false
      end
  | None => false
  end.

(** ** State *)

Module LapTime.

(** [interface LapTime], lines 6-10. *)
Record t : Type := mk {
  id : Z;
  time : string;
  totalTime : Z
}.

End LapTime.

(** Handles returned by [setInterval].  The host hands out non-zero
    handles only, so a stored handle always passes the truthiness test
    the handlers make on [intervalRef.current]. *)
Definition handle : Type := positive.

(** The component's state together with the part of the host it acts on.
    [intervals] lists the live intervals (all of them run the callback
    registered by [startStopwatch]); [nextHandle] is the handle the next
    [setInterval] call returns. *)
Record State : Type := mkState {
  time : Z;
  isRunning : bool;
  lapTimes : list LapTime.t;
  intervalRef : option handle;
  intervals : list handle;
  nextHandle : handle
}.

(** The state at mount: the [useState] and [useRef] initial values,
    lines 14-17, and a host with no interval registered. *)
Definition initial : State :=
  {| time := 0; isRunning := false; lapTimes := [];
     intervalRef := None; intervals := []; nextHandle := 1%positive |}.

(** ** Host operations *)

Definition is_live (h : handle) (s : State) : bool :=
  existsb (Pos.eqb h) (intervals s).

(** [clearInterval h]: the interval stops firing; clearing a handle that
    is not live does nothing. *)
Definition clearInterval (h : handle) (s : State) : State :=
  {| time := time s; isRunning := isRunning s; lapTimes := lapTimes s;
     intervalRef := intervalRef s;
     intervals := filter (fun x => negb (Pos.eqb x h)) (intervals s);
     nextHandle := nextHandle s |}.

(** One firing of the interval [h]: the callback of line 36,
    [setTime(prevTime => prevTime + 10)].  A cleared interval never
    fires. *)
Definition tick (h : handle) (s : State) : State :=
  if is_live h s then
    {| time := time s + 10; isRunning := isRunning s; lapTimes := lapTimes s;
       intervalRef := intervalRef s; intervals := intervals s;
       nextHandle := nextHandle s |}
  else s.

(** ** Handlers *)

(** [startStopwatch], lines 33-38. *)
Definition startStopwatch (s : State) : State :=
  let h := nextHandle s in
  {| time := time s; isRunning := true; lapTimes := lapTimes s;
     intervalRef := Some h;
     intervals := h :: intervals s;
     nextHandle := Pos.succ h |}.

(** [pauseStopwatch], lines 40-46. *)
Definition pauseStopwatch (s : State) : State :=
  match intervalRef s with
  | Some h =>
      let s' := clearInterval h s in
      {| time := time s'; isRunning := false; lapTimes := lapTimes s';
         intervalRef := None; intervals := intervals s';
         nextHandle := nextHandle s' |}
  | None =>
      {| time := time s; isRunning := false; lapTimes := lapTimes s;
         intervalRef := None; intervals := intervals s;
         nextHandle := nextHandle s |}
  end.

(** [resetStopwatch], lines 49-57. *)
Definition resetStopwatch (s : State) : State :=
  match intervalRef s with
  | Some h =>
      let s' := clearInterval h s in
      {| time := 0; isRunning := false; lapTimes := [];
         intervalRef := None; intervals := intervals s';
         nextHandle := nextHandle s' |}
  | None =>
      {| time := 0; isRunning := false; lapTimes := [];
         intervalRef := None; intervals := intervals s;
         nextHandle := nextHandle s |}
  end.

(** [recordLap], lines 60-69. *)
Definition recordLap (s : State) : State :=
  if (time s >? 0)%Z then
    let newLap :=
      {| LapTime.id := Z.of_nat (List.length (lapTimes s)) + 1;
         LapTime.time := formatTime (time s);
         LapTime.totalTime := time s |} in
    {| time := time s; isRunning := isRunning s;
       lapTimes := newLap :: lapTimes s;
       intervalRef := intervalRef s; intervals := intervals s;
       nextHandle := nextHandle s |}
  else s.

(** [handleStartPause], lines 72-78. *)
Definition handleStartPause (s : State) : State :=
  if isRunning s then pauseStopwatch s else startStopwatch s.

(** The cleanup returned by the effect of lines 80-86, run at unmount.
    It clears the stored interval and leaves the ref as it is. *)
Definition unmount (s : State) : State :=
  match intervalRef s with
  | Some h => clearInterval h s
  | None => s
  end.

(** ** Events and runs *)

(** What can happen to a mounted widget.  The three clicks and the
    firing of an interval are all the widget offers; [CallStart] and
    [CallPause] invoke the two inner handlers directly, which the
    rendered controls never do. *)
Inductive Event : Type :=
| CallStart
| CallPause
| ClickStartPause
| ClickLap
| ClickReset
| Fire (h : handle).

Definition run (e : Event) (s : State) : State :=
  match e with
  | CallStart => startStopwatch s
  | CallPause => pauseStopwatch s
  | ClickStartPause => handleStartPause s
  | ClickLap => recordLap s
  | ClickReset => resetStopwatch s
  | Fire h => tick h s
  end.

Definition exec (es : list Event) (s : State) : State :=
  fold_left (fun acc e => run e acc) es s.

(** The events the rendered widget and the host produce. *)
Definition from_widget (e : Event) : bool :=
  match e with
  | CallStart | CallPause => false
  | _ => true
  end.

Definition any_event (_ : Event) : bool := true.

Inductive reachable_by (allowed : Event -> bool) : State -> Prop :=
| reach_initial : reachable_by allowed initial
| reach_run s e :
    reachable_by allowed s -> allowed e = true ->
    reachable_by allowed (run e s).

(** States reachable when every operation may be invoked at any time. *)
Definition reachable : State -> Prop := reachable_by any_event.

(** States reachable by operating the rendered widget. *)
Definition widget_reachable : State -> Prop := reachable_by from_widget.

(** One tick interval elapses: every live interval fires once. *)
Definition tick_round (s : State) : State :=
  exec (map Fire (intervals s)) s.

(** ** Invariants *)

(** The ref tracks the host: the stored handle is the only live
    interval, and there is one exactly when the stopwatch runs. *)
Definition tracked (s : State) : Prop :=
  match intervalRef s with
  | Some h => isRunning s = true /\ intervals s = [h]
  | None => isRunning s = false /\ intervals s = []
  end.

(** Handles in use are older than the next one to be handed out. *)
Definition fresh (s : State) : Prop :=
  (forall h, In h (intervals s) -> (h < nextHandle s)%positive) /\
  (forall h, intervalRef s = Some h -> (h < nextHandle s)%positive).

(** Lap ids read front to back: [n; n-1; ...; 1]. *)
Fixpoint countdown (n : nat) : list Z :=
  match n with
  | O => []
  | S k => Z.of_nat n :: countdown k
  end.

Definition lap_ids (s : State) : list Z := map LapTime.id (lapTimes s).

Definition lap_consistent (l : LapTime.t) : Prop :=
  LapTime.time l = formatTime (LapTime.totalTime l).

Definition laps_consistent (s : State) : Prop :=
  Forall lap_consistent (lapTimes s).

(** ** What a formatted field is *)

(** A field of exactly two digits whose numeric value is [v]. *)
Definition two_digit_field (s : string) (v : Z) : Prop :=
  all_digits s = true /\ String.length s = 2%nat /\ value s = v.

(** The minutes field: at least two digits with value [v]; exactly two
    when [v] is below one hundred, and the bare numeral of [v] otherwise. *)
Definition minutes_field (s : string) (v : Z) : Prop :=
  all_digits s = true /\ (2 <= String.length s)%nat /\ value s = v /\
  (v < 100 -> String.length s = 2%nat) /\
  (100 <= v -> s = toString v).

(** A handle the host has handed out and that is no longer live. *)
Definition retired (h : handle) (s : State) : Prop :=
  (h < nextHandle s)%positive /\ ~ In h (intervals s).

(** The number of live intervals a state should have. *)
Definition expected_tickers (s : State) : nat :=
  if isRunning s then 1%nat else 0%nat.

(** ** Reading a formatted time back *)

(** The number of milliseconds a text [mm:ss:cs] stands for, the last
    field counting hundredths of a second. *)
Definition readClock (s : string) : option Z :=
  match split_colon s with
  | Some (mm, rest) =>
      match split_colon rest with
      | Some (ss, cs) => Some (60000 * value mm + 1000 * value ss + 10 * value cs)
      | None => None
      end
  | None => None
  end.

(** ** The rendered view *)

(** One row of the lap list, lines 175-188: the React key, the label
    [Lap {lap.id}] and the time text. *)
Record LapRow : Type := mkLapRow {
  rowKey : Z;
  rowLabel : string;
  rowTime : string
}.

(** The lap card, lines 168-191: its heading and its rows. *)
Record LapCard : Type := mkLapCard {
  heading : string;
  rows : list LapRow
}.

(** What the component renders, lines 88-201, as far as it depends on
    the state: the time display, the Start/Pause button (its variant, its
    label, and whether the display pulses), the disabled flags of the Lap
    and Reset buttons, and the lap card, present only when there are
    laps.  Class names, icons and the per-row animation delay carry no
    state beyond this and are left out. *)
Record View : Type := mkView {
  display : string;
  pulsing : bool;
  toggleVariant : string;
  toggleLabel : string;
  lapDisabled : bool;
  resetDisabled : bool;
  lapCard : option LapCard
}.

Definition renderRow (lap : LapTime.t) : LapRow :=
  {| rowKey := LapTime.id lap;
     rowLabel := "Lap " ++ toString (LapTime.id lap);
     rowTime := LapTime.time lap |}.

Definition render (s : State) : View :=
  {| display := formatTime (time s);
     pulsing := isRunning s;
     toggleVariant := if isRunning s then "pause" else "start";
     toggleLabel := if isRunning s then "Pause" else "Start";
     lapDisabled := (time s =? 0)%Z;
     resetDisabled :=
       (time s =? 0)%Z && (List.length (lapTimes s) =? 0)%nat;
     lapCard :=
       if (0 <? List.length (lapTimes s))%nat then
         Some {| heading :=
                   "Lap Times (" ++
                   toString (Z.of_nat (List.length (lapTimes s))) ++ ")";
                 rows := map renderRow (lapTimes s) |}
       else None |}.

(** The rows on screen, top to bottom; none when the card is absent. *)
Definition shown_rows (v : View) : list LapRow :=
  match lapCard v with
  | Some c => rows c
  | None => []
  end.

(** ** Further invariants *)

(** Every stored lap was taken at a positive time, on the 10 ms grid,
    no later than [now]. *)
Definition lap_in_range (now : Z) (l : LapTime.t) : Prop :=
  0 < LapTime.totalTime l <= now /\ LapTime.totalTime l mod 10 = 0.

(** Lap times, newest first, never increase down the list. *)
Definition laps_descending (s : State) : Prop :=
  StronglySorted Z.ge (map LapTime.totalTime (lapTimes s)).

(** ** Classifying events of a run *)

Definition is_reset (e : Event) : bool :=
  match e with
  | ClickReset => true
  | _ => false
  end.

Definition no_reset (es : list Event) : bool :=
  forallb (fun e => negb (is_reset e)) es.

Definition is_fire (e : Event) : bool :=
  match e with
  | Fire _ => true
  | _ => false
  end.

(** How many interval firings a run contains. *)
Definition count_fires (es : list Event) : nat :=
  List.length (filter is_fire es).

(** * Properties *)

(** ** Numerals *)

Section Numerals.

Lemma all_digits_uint (u : Decimal.uint) :
  all_digits (NilEmpty.string_of_uint u) = true.
Proof. induction u; simpl; auto. Qed.

Lemma value_from_uint_acc (u : Decimal.uint) :
  forall p : positive,
    value_from (Z.pos p) (NilEmpty.string_of_uint u) =
    Z.pos (Pos.of_uint_acc u p).
Proof.
  induction u; intros p; cbn [NilEmpty.string_of_uint value_from Pos.of_uint_acc];
    try reflexivity;
    match goal with
    | |- value_from ?a _ = Z.pos (Pos.of_uint_acc _ ?q) =>
        replace a with (Z.pos q) by (vm_compute nat_of_ascii; lia)
    end; apply IHu.
Qed.

Lemma value_from_uint (u : Decimal.uint) :
  value_from 0 (NilEmpty.string_of_uint u) = Z.of_N (Pos.of_uint u).
Proof.
  induction u; cbn [NilEmpty.string_of_uint value_from Pos.of_uint];
    try reflexivity; try exact IHu;
    match goal with
    | |- value_from ?a _ = Z.of_N (N.pos (Pos.of_uint_acc _ ?q)) =>
        change a with (Z.pos q)
    end; apply value_from_uint_acc.
Qed.

(** The numeral of a non-negative integer: digits only, never empty, and
    it reads back as the integer. *)
Lemma toString_nonneg (n : Z) :
  0 <= n ->
  all_digits (toString n) = true /\
  (1 <= String.length (toString n))%nat /\
  value (toString n) = n.
Proof.
  intros Hn. unfold toString, value.
  pose proof (DecimalZ.of_to n) as Hback.
  destruct n as [|p|p]; try lia; cbn [Z.to_int NilZero.string_of_int] in *.
  - repeat split; simpl; lia.
  - pose proof (DecimalPos.Unsigned.to_uint_nonnil p) as Hnil.
    unfold Z.of_int, Z.of_uint in Hback.
    assert (Hs : NilZero.string_of_uint (Pos.to_uint p) =
                 NilEmpty.string_of_uint (Pos.to_uint p))
      by (destruct (Pos.to_uint p); [congruence | reflexivity ..]).
    rewrite Hs. repeat split.
    + apply all_digits_uint.
    + destruct (Pos.to_uint p); [congruence | simpl; lia ..].
    + rewrite value_from_uint. exact Hback.
Qed.

Lemma length_repeat_char c k : String.length (repeat_char c k) = k.
Proof. induction k; simpl; congruence. Qed.

Lemma length_append (a b : string) :
  String.length (a ++ b) = (String.length a + String.length b)%nat.
Proof. induction a; simpl; congruence. Qed.

Lemma all_digits_append (a b : string) :
  all_digits (a ++ b) = all_digits a && all_digits b.
Proof. induction a; simpl; [reflexivity | rewrite IHa, andb_assoc; reflexivity]. Qed.

Lemma value_from_zeros k s :
  value_from 0 (repeat_char "0" k ++ s) = value_from 0 s.
Proof. induction k; simpl; auto. Qed.

Lemma padStart_length n c s :
  String.length (padStart n c s) = Nat.max n (String.length s).
Proof. unfold padStart. rewrite length_append, length_repeat_char. lia. Qed.

Lemma padStart_long n c s :
  (n <= String.length s)%nat -> padStart n c s = s.
Proof.
  intros H. unfold padStart.
  replace (n - String.length s)%nat with 0%nat by lia. reflexivity.
Qed.

Lemma padStart_zero_digits n s :
  all_digits s = true -> all_digits (padStart n "0" s) = true.
Proof.
  intros H. unfold padStart. rewrite all_digits_append, H, andb_true_r.
  induction (n - String.length s)%nat; simpl; auto.
Qed.

Lemma padStart_zero_value n s : value (padStart n "0" s) = value s.
Proof. apply value_from_zeros. Qed.

(** Numerals below one hundred have at most two digits. *)
Lemma toString_short (n : Z) :
  0 <= n < 100 -> (String.length (toString n) <= 2)%nat.
Proof.
  intros H.
  assert (Hall : forallb (fun k => (String.length (toString (Z.of_nat k)) <=? 2)%nat)
                         (seq 0 100) = true) by (vm_compute; reflexivity).
  rewrite forallb_forall in Hall.
  specialize (Hall (Z.to_nat n)).
  rewrite Z2Nat.id in Hall by lia.
  apply Nat.leb_le, Hall, in_seq. lia.
Qed.

Lemma toString_long (n : Z) :
  100 <= n -> (3 <= String.length (toString n))%nat.
Proof.
  intros H.
  destruct (toString_nonneg n ltac:(lia)) as (Hd & Hl & Hv).
  unfold value in Hv.
  destruct (toString n) as [|a [|b [|c r]]];
    cbn [value_from all_digits String.length] in *; try lia;
    repeat match goal with
           | H : _ && _ = true |- _ => apply andb_prop in H; destruct H
           end;
    unfold is_digit in *;
    repeat match goal with
           | H : _ && _ = true |- _ => apply andb_prop in H; destruct H
           | H : (_ <=? _)%nat = true |- _ => apply Nat.leb_le in H
           end; lia.
Qed.

End Numerals.

(** ** The formatter *)

Section Formatter.

Lemma two_digit_field_pad (v : Z) :
  0 <= v < 100 -> two_digit_field (padStart 2 "0" (toString v)) v.
Proof.
  intros Hv.
  destruct (toString_nonneg v ltac:(lia)) as (Hd & Hl & Hval).
  pose proof (toString_short v Hv) as Hs.
  repeat split.
  - now apply padStart_zero_digits.
  - rewrite padStart_length. lia.
  - now rewrite padStart_zero_value.
Qed.

Lemma minutes_field_pad (v : Z) :
  0 <= v -> minutes_field (padStart 2 "0" (toString v)) v.
Proof.
  intros Hv.
  destruct (toString_nonneg v Hv) as (Hd & Hl & Hval).
  repeat split.
  - now apply padStart_zero_digits.
  - rewrite padStart_length. lia.
  - now rewrite padStart_zero_value.
  - intros Hlt. pose proof (toString_short v ltac:(lia)).
    rewrite padStart_length. lia.
  - intros Hge. pose proof (toString_long v Hge).
    apply padStart_long. lia.
Qed.

Lemma is_digit_not_colon c : is_digit c = true -> Ascii.eqb c ":" = false.
Proof.
  intros H. destruct (Ascii.eqb_spec c ":") as [->|]; [discriminate H | reflexivity].
Qed.

Lemma split_colon_digits (mm rest : string) :
  all_digits mm = true ->
  split_colon (mm ++ ":" ++ rest) = Some (mm, rest).
Proof.
  induction mm as [|c mm IH]; intros H; [reflexivity|].
  cbn [all_digits] in H. apply andb_prop in H. destruct H as [Hc Hmm].
  change (String c mm ++ ":" ++ rest) with (String c (mm ++ ":" ++ rest)).
  cbn [split_colon]. rewrite (is_digit_not_colon c Hc).
  now rewrite (IH Hmm).
Qed.

Lemma matches_clock_fields (mm ss cs : string) (m s c : Z) :
  minutes_field mm m -> two_digit_field ss s -> two_digit_field cs c ->
  matches_clock (mm ++ ":" ++ ss ++ ":" ++ cs) = true.
Proof.
  intros (Hd & Hl & _) (Hsd & Hsl & _) (Hcd & Hcl & _).
  unfold matches_clock. rewrite split_colon_digits by assumption.
  rewrite Hd. apply Nat.leb_le in Hl. rewrite Hl.
  destruct ss as [|a [|b [|? ?]]]; try discriminate Hsl.
  destruct cs as [|d [|e [|? ?]]]; try discriminate Hcl.
  cbn [all_digits] in Hsd, Hcd.
  repeat match goal with
         | H : _ && _ = true |- _ => apply andb_prop in H; destruct H
         end.
  cbn [append andb].
  repeat match goal with
         | H : is_digit _ = true |- _ => rewrite H; clear H
         end.
  reflexivity.
Qed.

End Formatter.

Example formatTime_ten_minutes : formatTime 600000 = "10:00:00".
Proof. reflexivity. Qed.

Example formatTime_widens : formatTime 6000000 = "100:00:00".
Proof. reflexivity. Qed.

Example formatTime_quarter_second : formatTime 250 = "00:00:25".
Proof. reflexivity. Qed.

Example matches_clock_needs_two_minute_digits :
  matches_clock "1:00:00" = false /\ matches_clock "100:00:00" = true.
Proof. split; reflexivity. Qed.

(** C3. For every non-negative integer [t], [formatTime t] is three
    digit fields joined by colons and matches [\d{2,}:\d{2}:\d{2}]: the
    first field is [t / 60000] padded with zeros to at least two digits,
    the second is [(t mod 60000) / 1000] in exactly two digits, the third
    is [(t mod 1000) / 10] in exactly two digits.  In particular
    [formatTime 0 = "00:00:00"] and [formatTime 61010 = "01:01:01"]. *)
Theorem formatTime_spec (t : Z) (Ht : 0 <= t) :
  (exists mm ss cs : string,
      formatTime t = mm ++ ":" ++ ss ++ ":" ++ cs /\
      minutes_field mm (t / 60000) /\
      two_digit_field ss ((t mod 60000) / 1000) /\
      two_digit_field cs ((t mod 1000) / 10)) /\
  matches_clock (formatTime t) = true /\
  formatTime 0 = "00:00:00" /\
  formatTime 61010 = "01:01:01".
Proof.
  assert (Hm : minutes_field (padStart 2 "0" (toString (t / 60000))) (t / 60000)).
  { apply minutes_field_pad. apply Z.div_pos; lia. }
  assert (Hs : two_digit_field (padStart 2 "0" (toString ((t mod 60000) / 1000)))
                               ((t mod 60000) / 1000)).
  { apply two_digit_field_pad.
    pose proof (Z.mod_pos_bound t 60000 ltac:(lia)).
    split; [apply Z.div_pos; lia | apply Z.div_lt_upper_bound; lia]. }
  assert (Hc : two_digit_field (padStart 2 "0" (toString ((t mod 1000) / 10)))
                               ((t mod 1000) / 10)).
  { apply two_digit_field_pad.
    pose proof (Z.mod_pos_bound t 1000 ltac:(lia)).
    split; [apply Z.div_pos; lia | apply Z.div_lt_upper_bound; lia]. }
  assert (Hf : formatTime t =
               padStart 2 "0" (toString (t / 60000)) ++ ":" ++
               padStart 2 "0" (toString ((t mod 60000) / 1000)) ++ ":" ++
               padStart 2 "0" (toString ((t mod 1000) / 10))).
  { unfold formatTime. rewrite !Z.rem_mod_nonneg by lia. reflexivity. }
  split; [|split; [|split; reflexivity]].
  - eexists _, _, _. split; [exact Hf|]. auto.
  - rewrite Hf. eapply matches_clock_fields; eassumption.
Qed.

Lemma formatTime_spec_witness :
  0 <= 61010 /\
  (exists mm ss cs : string,
      formatTime 61010 = mm ++ ":" ++ ss ++ ":" ++ cs /\
      minutes_field mm (61010 / 60000) /\
      two_digit_field ss ((61010 mod 60000) / 1000) /\
      two_digit_field cs ((61010 mod 1000) / 10)).
Proof.
  split; [lia|]. apply (formatTime_spec 61010). lia.
Defined.

(** ** Handlers, one at a time *)

Section Handlers.

Variable s : State.

Lemma filter_self (h : handle) :
  filter (fun x => negb (Pos.eqb x h)) [h] = [].
Proof. simpl. now rewrite Pos.eqb_refl. Qed.

Lemma not_in_clear (h : handle) (l : list handle) :
  ~ In h (filter (fun x => negb (Pos.eqb x h)) l).
Proof.
  intros Hin. apply filter_In in Hin. destruct Hin as [_ Hneq].
  now rewrite Pos.eqb_refl in Hneq.
Qed.

Lemma in_clear_in (h k : handle) (l : list handle) :
  In k (filter (fun x => negb (Pos.eqb x h)) l) -> In k l.
Proof. intros Hin. now apply filter_In in Hin. Qed.

Lemma is_live_In (h : handle) : is_live h s = true <-> In h (intervals s).
Proof.
  unfold is_live. rewrite existsb_exists. split.
  - intros (x & Hx & Heq). apply Pos.eqb_eq in Heq. now subst.
  - intros Hin. exists h. split; [assumption | apply Pos.eqb_refl].
Qed.

Lemma is_live_false (h : handle) : is_live h s = false <-> ~ In h (intervals s).
Proof.
  rewrite <- is_live_In. destruct (is_live h s); split; congruence.
Qed.

Lemma tick_time (h : handle) :
  time (tick h s) = if is_live h s then time s + 10 else time s.
Proof. unfold tick. now destruct (is_live h s). Qed.

Lemma tick_frame (h : handle) :
  isRunning (tick h s) = isRunning s /\ lapTimes (tick h s) = lapTimes s /\
  intervalRef (tick h s) = intervalRef s /\ intervals (tick h s) = intervals s /\
  nextHandle (tick h s) = nextHandle s.
Proof. unfold tick. destruct (is_live h s); repeat split. Qed.

Lemma recordLap_frame :
  time (recordLap s) = time s /\ isRunning (recordLap s) = isRunning s /\
  intervalRef (recordLap s) = intervalRef s /\
  intervals (recordLap s) = intervals s /\
  nextHandle (recordLap s) = nextHandle s.
Proof. unfold recordLap. destruct (time s >? 0); repeat split. Qed.

Lemma pause_frame :
  time (pauseStopwatch s) = time s /\ lapTimes (pauseStopwatch s) = lapTimes s /\
  nextHandle (pauseStopwatch s) = nextHandle s.
Proof. unfold pauseStopwatch. destruct (intervalRef s); repeat split. Qed.

End Handlers.

(** ** Invariants of runs *)

Section Runs.

Lemma reachable_by_weaken (a b : Event -> bool) :
  (forall e, a e = true -> b e = true) ->
  forall s, reachable_by a s -> reachable_by b s.
Proof.
  intros Hab s H. induction H as [|s e _ IH He].
  - constructor.
  - constructor; auto.
Qed.

Lemma widget_reachable_reachable s : widget_reachable s -> reachable s.
Proof. apply reachable_by_weaken. reflexivity. Qed.

Lemma reachable_by_exec (a : Event -> bool) (es : list Event) :
  forallb a es = true ->
  forall s, reachable_by a s -> reachable_by a (exec es s).
Proof.
  induction es as [|e es IH]; intros Hall s Hs; [exact Hs|].
  cbn [forallb] in Hall. apply andb_prop in Hall. destruct Hall as [He Hes].
  apply (IH Hes). now constructor.
Qed.

Lemma run_time (e : Event) (s : State) :
  time (run e s) = time s \/
  (exists h, e = Fire h /\ is_live h s = true /\ time (run e s) = time s + 10) \/
  (e = ClickReset /\ time (run e s) = 0).
Proof.
  destruct e; cbn [run].
  - now left.
  - left. apply pause_frame.
  - left. unfold handleStartPause. destruct (isRunning s); [apply pause_frame | reflexivity].
  - left. apply recordLap_frame.
  - right; right. split; [reflexivity|].
    unfold resetStopwatch. now destruct (intervalRef s).
  - rewrite tick_time. destruct (is_live h s) eqn:Hl; [right; left; eauto | now left].
Qed.

Lemma time_nonneg s : reachable s -> 0 <= time s.
Proof.
  induction 1 as [|s e _ IH _]; [cbn; lia|].
  destruct (run_time e s) as [H | [(h & _ & _ & H) | (_ & H)]]; lia.
Qed.

Lemma tracked_run (e : Event) (s : State) :
  from_widget e = true -> tracked s -> tracked (run e s).
Proof.
  intros He. unfold tracked.
  destruct e; try discriminate He; cbn [run].
  - unfold handleStartPause, pauseStopwatch, startStopwatch.
    destruct (intervalRef s) as [h|]; intros [Hr Hi]; rewrite Hr; cbn.
    + rewrite Hi. split; [reflexivity | apply filter_self].
    + rewrite Hi. now split.
  - destruct (recordLap_frame s) as (_ & -> & -> & -> & _). auto.
  - unfold resetStopwatch.
    destruct (intervalRef s) as [h|]; intros [Hr Hi]; cbn.
    + rewrite Hi. split; [reflexivity | apply filter_self].
    + now split.
  - destruct (tick_frame s h) as (-> & _ & -> & -> & _). auto.
Qed.

Lemma widget_tracked s : widget_reachable s -> tracked s.
Proof.
  induction 1 as [|s e _ IH He]; [now split | now apply tracked_run].
Qed.

Lemma fresh_run (e : Event) (s : State) : fresh s -> fresh (run e s).
Proof.
  assert (Hp : fresh s -> fresh (pauseStopwatch s)).
  { unfold fresh, pauseStopwatch. intros [Hi Hr].
    destruct (intervalRef s); cbn; split; try discriminate; auto.
    intros k Hk. eapply Hi, in_clear_in, Hk. }
  assert (Hs : fresh s -> fresh (startStopwatch s)).
  { unfold fresh, startStopwatch. intros [Hi Hr]. cbn. split.
    - intros k [<- | Hk]; [lia | specialize (Hi k Hk); lia].
    - intros k [= <-]. lia. }
  destruct e; cbn [run]; auto.
  - unfold handleStartPause. destruct (isRunning s); auto.
  - unfold fresh. destruct (recordLap_frame s) as (_ & _ & -> & -> & ->). auto.
  - unfold fresh, resetStopwatch. intros [Hi Hr].
    destruct (intervalRef s); cbn; split; try discriminate; auto.
    intros k Hk. eapply Hi, in_clear_in, Hk.
  - unfold fresh. destruct (tick_frame s h) as (_ & _ & -> & -> & ->). auto.
Qed.

Lemma reachable_fresh s : reachable s -> fresh s.
Proof.
  induction 1 as [|s e _ IH _]; [|now apply fresh_run].
  split; cbn; [tauto | discriminate].
Qed.

(** A retired handle stays retired, whatever happens next. *)
Lemma retired_run (h : handle) (e : Event) (s : State) :
  retired h s -> retired h (run e s).
Proof.
  assert (Hp : retired h s -> retired h (pauseStopwatch s)).
  { unfold retired, pauseStopwatch. intros [Hlt Hni].
    destruct (intervalRef s); cbn; split; auto.
    intros Hin. eapply Hni, in_clear_in, Hin. }
  assert (Hs : retired h s -> retired h (startStopwatch s)).
  { unfold retired, startStopwatch. intros [Hlt Hni]. cbn. split; [lia|].
    intros [Heq | Hin]; [lia | auto]. }
  destruct e; cbn [run]; auto.
  - unfold handleStartPause. destruct (isRunning s); auto.
  - unfold retired. destruct (recordLap_frame s) as (_ & _ & _ & -> & ->). auto.
  - unfold retired, resetStopwatch. intros [Hlt Hni].
    destruct (intervalRef s); cbn; split; auto.
    intros Hin. eapply Hni, in_clear_in, Hin.
  - unfold retired. destruct (tick_frame s h0) as (_ & _ & _ & -> & ->). auto.
Qed.

Lemma retired_exec (h : handle) (es : list Event) :
  forall s, retired h s -> retired h (exec es s).
Proof.
  induction es as [|e es IH]; intros s Hs; [exact Hs|].
  apply IH, retired_run, Hs.
Qed.

Lemma exec_fire_idle (hs : list handle) (s : State) :
  intervals s = [] -> exec (map Fire hs) s = s.
Proof.
  intros Hi. induction hs as [|h hs IH]; [reflexivity|].
  cbn [map exec fold_left run]. unfold tick, is_live. rewrite Hi. exact IH.
Qed.

Lemma reset_idle (s : State) :
  tracked s ->
  intervals (resetStopwatch s) = [] /\ intervalRef (resetStopwatch s) = None.
Proof.
  unfold tracked, resetStopwatch.
  destruct (intervalRef s); intros [_ Hi]; cbn; rewrite Hi;
    split; auto using filter_self.
Qed.

Lemma pause_idle (s : State) :
  tracked s ->
  intervals (pauseStopwatch s) = [] /\ intervalRef (pauseStopwatch s) = None.
Proof.
  unfold tracked, pauseStopwatch.
  destruct (intervalRef s); intros [_ Hi]; cbn; rewrite Hi;
    split; auto using filter_self.
Qed.

Lemma unmount_idle (s : State) : tracked s -> intervals (unmount s) = [].
Proof.
  unfold tracked, unmount.
  destruct (intervalRef s); intros [_ Hi]; cbn; rewrite Hi;
    auto using filter_self.
Qed.

End Runs.

(** ** Starting *)

(** C1, as the code has it.  Operating the widget never stacks
    intervals: in every state reached through the rendered controls and
    interval firings there is one live interval when the stopwatch runs
    and none otherwise, a click on Start/Pause while running pauses
    instead of starting, and one tick interval advances the elapsed time
    by exactly 10 ms when running and by nothing otherwise. *)
Theorem widget_single_ticker (s : State) (Hs : widget_reachable s) :
  tracked s /\
  List.length (intervals s) = expected_tickers s /\
  List.length (intervals (handleStartPause s)) =
    expected_tickers (handleStartPause s) /\
  (isRunning s = true -> handleStartPause s = pauseStopwatch s) /\
  (isRunning s = false -> handleStartPause s = startStopwatch s) /\
  time (tick_round s) = time s + (if isRunning s then 10 else 0).
Proof.
  pose proof (widget_tracked s Hs) as Ht.
  assert (Hlen : forall s', tracked s' ->
            List.length (intervals s') = expected_tickers s').
  { intros s' H. unfold tracked, expected_tickers in *.
    destruct (intervalRef s'); destruct H as [-> ->]; reflexivity. }
  split; [exact Ht|]. split; [now apply Hlen|]. split.
  { apply Hlen. now apply (tracked_run ClickStartPause). }
  unfold handleStartPause.
  split; [now intros -> |]. split; [now intros -> |].
  unfold tracked in Ht. unfold tick_round.
  destruct (intervalRef s) as [h|]; destruct Ht as [Hr Hi]; rewrite Hr, Hi.
  - cbn [map exec fold_left run]. rewrite tick_time.
    assert (Hl : is_live h s = true) by (apply is_live_In; rewrite Hi; now left).
    now rewrite Hl.
  - cbn. lia.
Qed.

Lemma widget_single_ticker_witness :
  widget_reachable (run (Fire 1%positive) (run ClickStartPause initial)) /\
  time (tick_round (run (Fire 1%positive) (run ClickStartPause initial))) = 20.
Proof.
  assert (H : widget_reachable (run (Fire 1%positive) (run ClickStartPause initial)))
    by (repeat constructor).
  split; [exact H|].
  exact (proj2 (proj2 (proj2 (proj2 (proj2 (widget_single_ticker _ H)))))).
Defined.

(** C1, as stated, fails: [startStopwatch] has no guard of its own.
    Called on the running state that a first call produced, it changes
    the state, leaves two live intervals, and one tick interval then
    advances the elapsed time by 20 ms. *)
Lemma start_while_running_not_noop :
  isRunning (startStopwatch initial) = true /\
  startStopwatch (startStopwatch initial) <> startStopwatch initial /\
  intervals (startStopwatch (startStopwatch initial)) = [2%positive; 1%positive] /\
  time (tick_round (startStopwatch (startStopwatch initial))) =
    time (startStopwatch (startStopwatch initial)) + 20.
Proof.
  repeat split; try reflexivity. intros H. discriminate H.
Qed.

(** ** Laps *)

(** C2. With a positive elapsed time, [recordLap] puts exactly one new
    record in front of the stored ones: its id is the former lap count
    plus one, its text is [formatTime] of the elapsed time, its
    [totalTime] is the elapsed time; the former records follow unchanged
    and in order, and nothing else in the state changes. *)
Theorem recordLap_prepends (s : State) (Hpos : time s > 0) :
  lapTimes (recordLap s) =
    {| LapTime.id := Z.of_nat (List.length (lapTimes s)) + 1;
       LapTime.time := formatTime (time s);
       LapTime.totalTime := time s |} :: lapTimes s /\
  List.length (lapTimes (recordLap s)) = S (List.length (lapTimes s)) /\
  tl (lapTimes (recordLap s)) = lapTimes s /\
  time (recordLap s) = time s /\
  isRunning (recordLap s) = isRunning s /\
  intervalRef (recordLap s) = intervalRef s /\
  intervals (recordLap s) = intervals s.
Proof.
  unfold recordLap.
  assert (Hgt : (time s >? 0) = true) by (apply Z.gtb_lt; lia).
  rewrite Hgt. cbn. repeat split.
Qed.

Lemma recordLap_prepends_witness :
  time (run (Fire 1%positive) (startStopwatch initial)) > 0 /\
  lapTimes (recordLap (run (Fire 1%positive) (startStopwatch initial))) =
    [ {| LapTime.id := 1; LapTime.time := "00:00:01"; LapTime.totalTime := 10 |} ].
Proof.
  split; [reflexivity|].
  exact (proj1 (recordLap_prepends (run (Fire 1%positive) (startStopwatch initial))
                  ltac:(reflexivity))).
Defined.

(** C5. At elapsed time exactly 0, [recordLap] returns the state it was
    given: the lap list and everything else are untouched.  The handler
    is a total function, so there is no error to raise. *)
Theorem recordLap_at_zero (s : State) (Hzero : time s = 0) :
  recordLap s = s /\ lapTimes (recordLap s) = lapTimes s.
Proof.
  unfold recordLap. rewrite Hzero. cbn. split; reflexivity.
Qed.

Lemma recordLap_at_zero_witness :
  time (startStopwatch initial) = 0 /\
  recordLap (startStopwatch initial) = startStopwatch initial.
Proof.
  split; [reflexivity|].
  exact (proj1 (recordLap_at_zero (startStopwatch initial) eq_refl)).
Defined.

Section LapIds.

Lemma rev_countdown (n : nat) :
  rev (countdown n) = map Z.of_nat (seq 1 n).
Proof.
  induction n as [|n IH]; [reflexivity|].
  rewrite seq_S, map_app. cbn [countdown rev]. rewrite IH. reflexivity.
Qed.

Lemma seq_strictly_increasing (n : nat) :
  forall a, StronglySorted Z.lt (map Z.of_nat (seq a n)).
Proof.
  induction n as [|n IH]; intros a; cbn [seq map]; constructor.
  - apply IH.
  - apply Forall_forall. intros z Hz.
    apply in_map_iff in Hz. destruct Hz as (k & <- & Hk).
    apply in_seq in Hk. lia.
Qed.

Lemma lap_ids_run (e : Event) (s : State) :
  lap_ids s = countdown (List.length (lapTimes s)) ->
  lap_ids (run e s) = countdown (List.length (lapTimes (run e s))).
Proof.
  unfold lap_ids. intros H.
  destruct e; cbn [run].
  - exact H.
  - destruct (pause_frame s) as (_ & -> & _). exact H.
  - unfold handleStartPause. destruct (isRunning s); [|exact H].
    destruct (pause_frame s) as (_ & -> & _). exact H.
  - unfold recordLap. destruct (time s >? 0); [|exact H].
    cbn [lapTimes map List.length countdown LapTime.id]. rewrite H.
    f_equal. lia.
  - unfold resetStopwatch. now destruct (intervalRef s).
  - destruct (tick_frame s h) as (_ & -> & _). exact H.
Qed.

End LapIds.

(** C7. In every state reachable from the initial one by start, pause,
    toggle, interval firings, lap and reset, the stored lap ids read
    front to back are [n; n-1; ...; 1] for [n] the lap count; read in
    capture order they are [1; 2; ...; n], strictly increasing from 1. *)
Theorem lap_ids_sequence (s : State) (Hs : reachable s) :
  lap_ids s = countdown (List.length (lapTimes s)) /\
  rev (lap_ids s) = map Z.of_nat (seq 1 (List.length (lapTimes s))) /\
  StronglySorted Z.lt (rev (lap_ids s)).
Proof.
  assert (H : lap_ids s = countdown (List.length (lapTimes s))).
  { induction Hs as [|s e _ IH _]; [reflexivity | now apply lap_ids_run]. }
  split; [exact H|]. rewrite H, rev_countdown.
  split; [reflexivity | apply seq_strictly_increasing].
Qed.

Lemma lap_ids_sequence_witness :
  reachable (exec [CallStart; Fire 1%positive; ClickLap; Fire 1%positive; ClickLap] initial) /\
  lap_ids (exec [CallStart; Fire 1%positive; ClickLap; Fire 1%positive; ClickLap] initial) =
    [2; 1].
Proof.
  assert (H : reachable (exec [CallStart; Fire 1%positive; ClickLap;
                               Fire 1%positive; ClickLap] initial))
    by (apply reachable_by_exec; [reflexivity | constructor]).
  split; [exact H|].
  exact (proj1 (lap_ids_sequence _ H)).
Defined.

(** C9. Every stored lap record carries the text that [formatTime], the
    formatter of the live display, gives for its own [totalTime]; this
    holds in every reachable state and every operation preserves it. *)
Theorem laps_formatted_consistently (s : State) (Hs : reachable s) :
  laps_consistent s /\
  (forall l, In l (lapTimes s) ->
             LapTime.time l = formatTime (LapTime.totalTime l)) /\
  (forall (s' : State) (e : Event),
      laps_consistent s' -> laps_consistent (run e s')).
Proof.
  assert (Hstep : forall (s' : State) (e : Event),
             laps_consistent s' -> laps_consistent (run e s')).
  { intros s' e H. unfold laps_consistent in *.
    destruct e; cbn [run].
    - exact H.
    - destruct (pause_frame s') as (_ & -> & _). exact H.
    - unfold handleStartPause. destruct (isRunning s'); [|exact H].
      destruct (pause_frame s') as (_ & -> & _). exact H.
    - unfold recordLap. destruct (time s' >? 0); [|exact H].
      cbn [lapTimes]. constructor; [reflexivity | exact H].
    - unfold resetStopwatch. destruct (intervalRef s'); constructor.
    - destruct (tick_frame s' h) as (_ & -> & _). exact H. }
  assert (Hinv : laps_consistent s).
  { induction Hs as [|s e _ IH _]; [constructor | now apply Hstep]. }
  split; [exact Hinv|]. split; [|exact Hstep].
  intros l Hl. unfold laps_consistent in Hinv.
  rewrite Forall_forall in Hinv. exact (Hinv l Hl).
Qed.

Lemma laps_formatted_consistently_witness :
  reachable (exec [ClickStartPause; Fire 1%positive; ClickLap] initial) /\
  laps_consistent (exec [ClickStartPause; Fire 1%positive; ClickLap] initial).
Proof.
  assert (H : reachable (exec [ClickStartPause; Fire 1%positive; ClickLap] initial))
    by (apply reachable_by_exec; [reflexivity | constructor]).
  split; [exact H|].
  exact (proj1 (laps_formatted_consistently _ H)).
Defined.

(** ** Resetting and cancelling *)

(** C4. From every state, [resetStopwatch] yields a state that is not
    running, has elapsed time 0, no laps and an empty ref; the interval
    whose handle the ref held is cancelled; and when that was the only
    live interval, which is the case in every state the widget reaches,
    no interval is left at all. *)
Theorem reset_clears (s : State) :
  isRunning (resetStopwatch s) = false /\
  time (resetStopwatch s) = 0 /\
  lapTimes (resetStopwatch s) = [] /\
  intervalRef (resetStopwatch s) = None /\
  (forall h, intervalRef s = Some h -> is_live h (resetStopwatch s) = false) /\
  (tracked s -> intervals (resetStopwatch s) = []) /\
  (widget_reachable s -> intervals (resetStopwatch s) = []).
Proof.
  assert (Ht : tracked s -> intervals (resetStopwatch s) = [])
    by (intros H; apply reset_idle, H).
  repeat split; try (unfold resetStopwatch; now destruct (intervalRef s)).
  - intros h Hh. apply is_live_false.
    unfold resetStopwatch. rewrite Hh. cbn. apply not_in_clear.
  - exact Ht.
  - intros Hs. apply Ht, widget_tracked, Hs.
Qed.

Lemma reset_clears_witness :
  widget_reachable (exec [ClickStartPause; Fire 1%positive; ClickLap] initial) /\
  intervals (resetStopwatch
               (exec [ClickStartPause; Fire 1%positive; ClickLap] initial)) = [].
Proof.
  assert (H : widget_reachable
                (exec [ClickStartPause; Fire 1%positive; ClickLap] initial))
    by (apply reachable_by_exec; [reflexivity | constructor]).
  split; [exact H|].
  exact (proj2 (proj2 (proj2 (proj2 (proj2 (proj2 (reset_clears _)))))) H).
Defined.

(** C6. In every state the widget reaches, pausing, resetting and
    unmounting each leave no live interval (pause and reset also empty
    the ref), so no sequence of interval firings changes the state
    afterwards; and the handle that was cancelled by a pause or a reset
    is never live again, whatever operations follow. *)
Theorem cancelled_never_ticks (s : State) (Hs : widget_reachable s) :
  (intervals (pauseStopwatch s) = [] /\ intervalRef (pauseStopwatch s) = None) /\
  (intervals (resetStopwatch s) = [] /\ intervalRef (resetStopwatch s) = None) /\
  intervals (unmount s) = [] /\
  (forall hs : list handle,
      exec (map Fire hs) (pauseStopwatch s) = pauseStopwatch s /\
      exec (map Fire hs) (resetStopwatch s) = resetStopwatch s /\
      exec (map Fire hs) (unmount s) = unmount s) /\
  (forall (h : handle) (es : list Event),
      intervalRef s = Some h ->
      tick h (exec es (pauseStopwatch s)) = exec es (pauseStopwatch s) /\
      tick h (exec es (resetStopwatch s)) = exec es (resetStopwatch s)).
Proof.
  pose proof (widget_tracked s Hs) as Ht.
  pose proof (reachable_fresh s (widget_reachable_reachable s Hs)) as [_ Hfr].
  pose proof (pause_idle s Ht) as Hp.
  pose proof (reset_idle s Ht) as Hr.
  pose proof (unmount_idle s Ht) as Hu.
  split; [exact Hp|]. split; [exact Hr|]. split; [exact Hu|]. split.
  - intros hs. repeat split; apply exec_fire_idle; tauto.
  - intros h es Hh.
    assert (Hdead : forall s', retired h s' -> tick h s' = s').
    { intros s' [_ Hni]. unfold tick.
      apply is_live_false in Hni. now rewrite Hni. }
    split; apply Hdead, retired_exec; split.
    + destruct (pause_frame s) as (_ & _ & ->). auto.
    + destruct Hp as [-> _]. tauto.
    + replace (nextHandle (resetStopwatch s)) with (nextHandle s)
        by (unfold resetStopwatch; now destruct (intervalRef s)).
      auto.
    + destruct Hr as [-> _]. tauto.
Qed.

Lemma cancelled_never_ticks_witness :
  widget_reachable (exec [ClickStartPause; Fire 1%positive] initial) /\
  tick 1%positive
       (exec [ClickStartPause; Fire 2%positive; Fire 1%positive]
             (pauseStopwatch (exec [ClickStartPause; Fire 1%positive] initial))) =
  exec [ClickStartPause; Fire 2%positive; Fire 1%positive]
       (pauseStopwatch (exec [ClickStartPause; Fire 1%positive] initial)).
Proof.
  assert (H : widget_reachable (exec [ClickStartPause; Fire 1%positive] initial))
    by (apply reachable_by_exec; [reflexivity | constructor]).
  split; [exact H|].
  exact (proj1 (proj2 (proj2 (proj2 (proj2 (cancelled_never_ticks _ H))))
                  1%positive [ClickStartPause; Fire 2%positive; Fire 1%positive]
                  eq_refl)).
Defined.

(** ** Elapsed time *)

(** C8. In every reachable state the elapsed time is not negative; a
    firing of a live interval adds exactly 10 to it; no operation other
    than reset lowers it; and it can only go from a non-zero value to 0
    through reset. *)
Theorem elapsed_time_monotone (s : State) (Hs : reachable s) :
  0 <= time s /\
  (forall h, is_live h s = true -> time (tick h s) = time s + 10) /\
  (forall e, e <> ClickReset -> time s <= time (run e s)) /\
  (forall e, time s <> 0 -> time (run e s) = 0 -> e = ClickReset) /\
  (forall e, 0 <= time (run e s)).
Proof.
  pose proof (time_nonneg s Hs) as H0.
  split; [exact H0|]. split; [|split; [|split]].
  - intros h Hl. now rewrite tick_time, Hl.
  - intros e He.
    destruct (run_time e s) as [H | [(h & _ & _ & H) | (Heq & _)]];
      [lia | lia | contradiction].
  - intros e Hnz Hz.
    destruct (run_time e s) as [H | [(h & _ & _ & H) | (Heq & _)]];
      [lia | lia | exact Heq].
  - intros e. apply time_nonneg. now constructor.
Qed.

Lemma elapsed_time_monotone_witness :
  reachable (exec [CallStart; Fire 1%positive] initial) /\
  time (tick 1%positive (exec [CallStart; Fire 1%positive] initial)) = 20.
Proof.
  assert (H : reachable (exec [CallStart; Fire 1%positive] initial))
    by (apply reachable_by_exec; [reflexivity | constructor]).
  split; [exact H|].
  exact (proj1 (proj2 (elapsed_time_monotone _ H)) 1%positive eq_refl).
Defined.

(** C10. [startStopwatch], [pauseStopwatch], [handleStartPause] and
    [recordLap] leave the elapsed time as it is, and the first three
    leave the lap list as it is; an operation that does change the
    elapsed time is an interval firing, which adds 10, or a reset, which
    sets it to 0. *)
Theorem frame_of_handlers (s : State) :
  (time (startStopwatch s) = time s /\
   time (pauseStopwatch s) = time s /\
   time (handleStartPause s) = time s /\
   time (recordLap s) = time s) /\
  (lapTimes (startStopwatch s) = lapTimes s /\
   lapTimes (pauseStopwatch s) = lapTimes s /\
   lapTimes (handleStartPause s) = lapTimes s) /\
  (forall e, time (run e s) <> time s ->
             (exists h, e = Fire h /\ time (run e s) = time s + 10) \/
             (e = ClickReset /\ time (run e s) = 0)).
Proof.
  destruct (pause_frame s) as (Hpt & Hpl & _).
  split; [|split].
  - repeat split; try assumption; try apply recordLap_frame.
    unfold handleStartPause. now destruct (isRunning s).
  - repeat split; try assumption.
    unfold handleStartPause. now destruct (isRunning s).
  - intros e Hne.
    destruct (run_time e s) as [H | [(h & He & _ & H) | H]];
      [contradiction | left; eauto | now right].
Qed.

Lemma frame_of_handlers_witness :
  time (run ClickReset (exec [CallStart; Fire 1%positive] initial)) <>
    time (exec [CallStart; Fire 1%positive] initial) /\
  ((exists h, ClickReset = Fire h /\
              time (run ClickReset (exec [CallStart; Fire 1%positive] initial)) =
              time (exec [CallStart; Fire 1%positive] initial) + 10) \/
   (ClickReset = ClickReset /\
    time (run ClickReset (exec [CallStart; Fire 1%positive] initial)) = 0)).
Proof.
  assert (H : time (run ClickReset (exec [CallStart; Fire 1%positive] initial)) <>
              time (exec [CallStart; Fire 1%positive] initial))
    by (intros E; discriminate E).
  split; [exact H|].
  exact (proj2 (proj2 (frame_of_handlers _)) ClickReset H).
Defined.

(** * Further properties of the code *)

(** ** The formatter, read back *)

Section ReadBack.

Lemma formatTime_decompose (t : Z) :
  0 <= t ->
  exists mm ss cs : string,
    formatTime t = mm ++ ":" ++ ss ++ ":" ++ cs /\
    minutes_field mm (t / 60000) /\
    two_digit_field ss ((t mod 60000) / 1000) /\
    two_digit_field cs ((t mod 1000) / 10).
Proof.
  intros Ht.
  exists (padStart 2 "0" (toString (t / 60000))),
         (padStart 2 "0" (toString ((t mod 60000) / 1000))),
         (padStart 2 "0" (toString ((t mod 1000) / 10))).
  split; [|split; [|split]].
  - unfold formatTime. rewrite !Z.rem_mod_nonneg by lia. reflexivity.
  - apply minutes_field_pad. apply Z.div_pos; lia.
  - apply two_digit_field_pad.
    pose proof (Z.mod_pos_bound t 60000 ltac:(lia)).
    split; [apply Z.div_pos; lia | apply Z.div_lt_upper_bound; lia].
  - apply two_digit_field_pad.
    pose proof (Z.mod_pos_bound t 1000 ltac:(lia)).
    split; [apply Z.div_pos; lia | apply Z.div_lt_upper_bound; lia].
Qed.

Lemma readClock_formatTime (t : Z) :
  0 <= t -> readClock (formatTime t) = Some (10 * (t / 10)).
Proof.
  intros Ht.
  destruct (formatTime_decompose t Ht)
    as (mm & ss & cs & -> & (Hmd & _ & Hmv & _) & (Hsd & _ & Hsv) & (_ & _ & Hcv)).
  unfold readClock.
  rewrite (split_colon_digits mm _ Hmd), (split_colon_digits ss cs Hsd).
  rewrite Hmv, Hsv, Hcv. f_equal.
  Z.div_mod_to_equations. lia.
Qed.

Lemma formatTime_of_hundredths (t : Z) :
  0 <= t ->
  formatTime t =
    padStart 2 "0" (toString (t / 10 / 6000)) ++ ":" ++
    padStart 2 "0" (toString ((t / 10) mod 6000 / 100)) ++ ":" ++
    padStart 2 "0" (toString ((t / 10) mod 100)).
Proof.
  intros Ht. unfold formatTime. rewrite !Z.rem_mod_nonneg by lia.
  replace (t / 60000) with (t / 10 / 6000)
    by (Z.div_mod_to_equations; lia).
  replace (t mod 60000 / 1000) with ((t / 10) mod 6000 / 100)
    by (Z.div_mod_to_equations; lia).
  replace (t mod 1000 / 10) with ((t / 10) mod 100)
    by (Z.div_mod_to_equations; lia).
  reflexivity.
Qed.

Lemma toString_negative (n : Z) :
  n < 0 -> exists r, toString n = String "-" r /\ (1 <= String.length r)%nat.
Proof.
  intros Hn. destruct n as [|p|p]; try lia.
  unfold toString. cbn [Z.to_int NilZero.string_of_int].
  eexists. split; [reflexivity|].
  pose proof (DecimalPos.Unsigned.to_uint_nonnil p) as Hnil.
  destruct (Pos.to_uint p); [congruence | simpl; lia ..].
Qed.

Lemma matches_clock_minus (r : string) : matches_clock (String "-" r) = false.
Proof.
  unfold matches_clock. cbn [split_colon].
  change (Ascii.eqb "-" ":") with false. cbv iota.
  destruct (split_colon r) as [[a b]|]; reflexivity.
Qed.

End ReadBack.

(** X1. For non-negative times the formatted text identifies the time to
    the hundredth of a second and no further: two times format alike
    exactly when they agree after dropping the last decimal digit.
    Reading the text back as minutes, seconds and hundredths returns the
    time rounded down to a multiple of 10 ms. *)
Theorem formatTime_same_iff (a b : Z) (Ha : 0 <= a) (Hb : 0 <= b) :
  (formatTime a = formatTime b <-> a / 10 = b / 10) /\
  readClock (formatTime a) = Some (a - a mod 10).
Proof.
  split.
  - split.
    + intros Heq.
      pose proof (readClock_formatTime a Ha) as Ra.
      pose proof (readClock_formatTime b Hb) as Rb.
      rewrite Heq, Rb in Ra.
      assert (Hten : 10 * (b / 10) = 10 * (a / 10)) by congruence.
      lia.
    + intros Heq.
      rewrite (formatTime_of_hundredths a Ha), (formatTime_of_hundredths b Hb), Heq.
      reflexivity.
  - rewrite (readClock_formatTime a Ha). f_equal.
    Z.div_mod_to_equations. lia.
Qed.

Lemma formatTime_same_iff_witness :
  0 <= 61010 /\ 0 <= 61019 /\ formatTime 61010 = formatTime 61019.
Proof.
  assert (Ha : 0 <= 61010) by lia.
  assert (Hb : 0 <= 61019) by lia.
  split; [exact Ha|]. split; [exact Hb|].
  exact (proj2 (proj1 (formatTime_same_iff 61010 61019 Ha Hb)) eq_refl).
Defined.

(** X2. Below zero the formatter leaves the clock pattern: the minutes
    field then starts with a minus sign, so the text is never of the
    form [\d{2,}:\d{2}:\d{2}]. *)
Theorem formatTime_negative_off_pattern (t : Z) (Ht : t < 0) :
  matches_clock (formatTime t) = false /\
  exists r, formatTime t = String "-" r.
Proof.
  assert (Hm : t / 60000 < 0) by (Z.div_mod_to_equations; lia).
  destruct (toString_negative _ Hm) as (r & Hr & Hlen).
  assert (Hf : formatTime t =
               String "-" (r ++ ":" ++
                 padStart 2 "0" (toString (Z.rem t 60000 / 1000)) ++ ":" ++
                 padStart 2 "0" (toString (Z.rem t 1000 / 10)))).
  { unfold formatTime. cbv zeta. rewrite Hr.
    rewrite padStart_long by (cbn [String.length]; lia). reflexivity. }
  rewrite Hf. split; [apply matches_clock_minus | eauto].
Qed.

Lemma formatTime_negative_off_pattern_witness :
  -10 < 0 /\ matches_clock (formatTime (-10)) = false.
Proof.
  assert (H : -10 < 0) by lia.
  split; [exact H|].
  exact (proj1 (formatTime_negative_off_pattern (-10) H)).
Defined.

(** ** More invariants of runs *)

Section MoreRuns.

Lemma matches_clock_formatTime (t : Z) :
  0 <= t -> matches_clock (formatTime t) = true.
Proof.
  intros Ht.
  destruct (formatTime_decompose t Ht) as (mm & ss & cs & -> & Hm & Hs & Hc).
  eapply matches_clock_fields; eassumption.
Qed.

Lemma run_laps (e : Event) (s : State) :
  lapTimes (run e s) = lapTimes s \/
  (e = ClickLap /\ 0 < time s /\
   lapTimes (run e s) =
     {| LapTime.id := Z.of_nat (List.length (lapTimes s)) + 1;
        LapTime.time := formatTime (time s);
        LapTime.totalTime := time s |} :: lapTimes s) \/
  (e = ClickReset /\ lapTimes (run e s) = []).
Proof.
  destruct e; cbn [run].
  - now left.
  - left. apply pause_frame.
  - left. unfold handleStartPause. destruct (isRunning s); [apply pause_frame | reflexivity].
  - unfold recordLap. destruct (time s >? 0) eqn:Hgt; [|now left].
    right; left. apply Z.gtb_lt in Hgt. repeat split. lia.
  - right; right. split; [reflexivity|].
    unfold resetStopwatch. now destruct (intervalRef s).
  - left. apply tick_frame.
Qed.

Lemma time_grid s : reachable s -> time s mod 10 = 0.
Proof.
  induction 1 as [|s e _ IH _]; [reflexivity|].
  destruct (run_time e s) as [-> | [(h & _ & _ & ->) | (_ & ->)]];
    [exact IH | | reflexivity].
  Z.div_mod_to_equations. lia.
Qed.

Lemma lap_in_range_later (now now' : Z) (l : LapTime.t) :
  now <= now' -> lap_in_range now l -> lap_in_range now' l.
Proof. unfold lap_in_range. intros Hle [[Hpos Hup] Hmod]. repeat split; lia. Qed.

Lemma laps_in_range s :
  reachable s ->
  Forall (lap_in_range (time s)) (lapTimes s) /\ laps_descending s.
Proof.
  unfold laps_descending.
  intros Hs. induction Hs as [|s e Hs [IHr IHd] _]; [split; constructor|].
  pose proof (time_grid s Hs) as Hgrid.
  destruct (run_laps e s) as [Hl | [(-> & Hpos & Hl) | (_ & Hl)]]; rewrite Hl.
  - split; [|exact IHd].
    destruct (run_time e s) as [-> | [(h & _ & _ & ->) | (-> & _)]].
    + exact IHr.
    + eapply Forall_impl; [|exact IHr].
      intros l. apply lap_in_range_later. lia.
    + cbn [run] in Hl. rewrite <- Hl.
      unfold resetStopwatch. destruct (intervalRef s); constructor.
  - destruct (recordLap_frame s) as (Ht & _). cbn [run]. rewrite Ht.
    split.
    + constructor; [|exact IHr].
      unfold lap_in_range. cbn [LapTime.totalTime]. repeat split; lia.
    + cbn [map LapTime.totalTime]. constructor; [exact IHd|].
      apply Forall_forall. intros z Hz.
      apply in_map_iff in Hz. destruct Hz as (l & <- & Hin).
      rewrite Forall_forall in IHr. destruct (IHr l Hin) as [[_ Hup] _]. lia.
  - split; constructor.
Qed.

Lemma laps_consistent_run (e : Event) (s : State) :
  laps_consistent s -> laps_consistent (run e s).
Proof.
  unfold laps_consistent. intros H.
  destruct (run_laps e s) as [-> | [(_ & _ & ->) | (_ & ->)]];
    [exact H | constructor; [reflexivity | exact H] | constructor].
Qed.

Lemma reachable_laps_consistent s : reachable s -> laps_consistent s.
Proof.
  induction 1 as [|s e _ IH _]; [constructor | now apply laps_consistent_run].
Qed.

Lemma reachable_lap_ids s :
  reachable s -> lap_ids s = countdown (List.length (lapTimes s)).
Proof.
  induction 1 as [|s e _ IH _]; [reflexivity | now apply lap_ids_run].
Qed.

Lemma in_countdown (n : nat) (z : Z) :
  In z (countdown n) -> 1 <= z <= Z.of_nat n.
Proof.
  induction n as [|n IH]; [contradiction|].
  cbn [countdown]. intros [<- | Hin]; [lia | specialize (IH Hin); lia].
Qed.

Lemma NoDup_countdown (n : nat) : NoDup (countdown n).
Proof.
  induction n as [|n IH]; cbn [countdown]; constructor; [|exact IH].
  intros Hin. apply in_countdown in Hin. lia.
Qed.

Lemma exec_app (es es' : list Event) (s : State) :
  exec (es ++ es') s = exec es' (exec es s).
Proof. apply fold_left_app. Qed.

Lemma exec_fire_repeat (h : handle) (n : nat) :
  forall s, is_live h s = true ->
    exec (repeat (Fire h) n) s =
    {| time := time s + 10 * Z.of_nat n; isRunning := isRunning s;
       lapTimes := lapTimes s; intervalRef := intervalRef s;
       intervals := intervals s; nextHandle := nextHandle s |}.
Proof.
  induction n as [|n IH]; intros s Hl.
  - cbn. destruct s; cbn. f_equal. lia.
  - cbn [repeat exec fold_left run]. fold (exec (repeat (Fire h) n)).
    assert (Ht : tick h s =
      {| time := time s + 10; isRunning := isRunning s;
         lapTimes := lapTimes s; intervalRef := intervalRef s;
         intervals := intervals s; nextHandle := nextHandle s |})
      by (unfold tick; now rewrite Hl).
    rewrite Ht, IH by exact Hl.
    cbn [time isRunning lapTimes intervalRef intervals nextHandle].
    f_equal. lia.
Qed.

Lemma filter_clear_twice (h : handle) (l : list handle) :
  filter (fun x => negb (Pos.eqb x h)) (filter (fun x => negb (Pos.eqb x h)) l) =
  filter (fun x => negb (Pos.eqb x h)) l.
Proof.
  induction l as [|x l IH]; [reflexivity|].
  cbn [filter]. destruct (negb (Pos.eqb x h)) eqn:Hx; [|exact IH].
  cbn [filter]. now rewrite Hx, IH.
Qed.

Lemma filter_clear_absent (h : handle) (l : list handle) :
  ~ In h l -> filter (fun x => negb (Pos.eqb x h)) l = l.
Proof.
  induction l as [|x l IH]; intros Hni; [reflexivity|].
  cbn [filter]. destruct (Pos.eqb_spec x h) as [->|Hne].
  - exfalso. apply Hni. now left.
  - cbn [negb]. rewrite IH; [reflexivity|].
    intros Hin. apply Hni. now right.
Qed.

End MoreRuns.

(** ** Elapsed time and what the display shows *)

(** X3. In every reachable state the elapsed time is a multiple of 10
    ms, so the time display loses nothing: it matches the clock pattern,
    reads back as exactly the elapsed time, and two reachable states with
    the same display have the same elapsed time. *)
Theorem display_determines_time (s : State) (Hs : reachable s) :
  time s mod 10 = 0 /\
  matches_clock (display (render s)) = true /\
  readClock (display (render s)) = Some (time s) /\
  (forall s', reachable s' ->
              display (render s') = display (render s) -> time s' = time s).
Proof.
  assert (Hread : forall s0, reachable s0 ->
            readClock (display (render s0)) = Some (time s0)).
  { intros s0 H0. cbn [render display].
    rewrite (readClock_formatTime _ (time_nonneg s0 H0)). f_equal.
    pose proof (time_grid s0 H0). Z.div_mod_to_equations. lia. }
  split; [now apply time_grid|]. split; [|split].
  - apply matches_clock_formatTime, time_nonneg, Hs.
  - now apply Hread.
  - intros s' Hs' Heq.
    pose proof (Hread s' Hs') as R'. rewrite Heq, (Hread s Hs) in R'.
    congruence.
Qed.

Lemma display_determines_time_witness :
  reachable (exec [ClickStartPause; Fire 1%positive; Fire 1%positive] initial) /\
  readClock (display (render
    (exec [ClickStartPause; Fire 1%positive; Fire 1%positive] initial))) = Some 20.
Proof.
  assert (H : reachable
                (exec [ClickStartPause; Fire 1%positive; Fire 1%positive] initial))
    by (apply reachable_by_exec; [reflexivity | constructor]).
  split; [exact H|].
  exact (proj1 (proj2 (proj2 (display_determines_time _ H)))).
Defined.

(** X4. In every reachable state each stored lap was taken at a positive
    multiple of 10 ms not later than the current elapsed time, its text
    matches the clock pattern and reads back as exactly its [totalTime],
    and down the list (newest first) the lap times never increase. *)
Theorem laps_are_snapshots (s : State) (Hs : reachable s) :
  (forall l, In l (lapTimes s) ->
     lap_in_range (time s) l /\
     matches_clock (LapTime.time l) = true /\
     readClock (LapTime.time l) = Some (LapTime.totalTime l)) /\
  laps_descending s.
Proof.
  destruct (laps_in_range s Hs) as [Hr Hd].
  pose proof (reachable_laps_consistent s Hs) as Hc.
  split; [|exact Hd].
  intros l Hl. unfold laps_consistent in Hc.
  rewrite Forall_forall in Hr, Hc.
  pose proof (Hr l Hl) as Hin. destruct Hin as [[Hpos Hup] Hmod].
  rewrite (Hc l Hl).
  split; [exact (Hr l Hl)|]. split.
  - apply matches_clock_formatTime. lia.
  - rewrite readClock_formatTime by lia. f_equal.
    Z.div_mod_to_equations. lia.
Qed.

Lemma laps_are_snapshots_witness :
  reachable (exec [CallStart; Fire 1%positive; ClickLap; Fire 1%positive; ClickLap]
                  initial) /\
  laps_descending (exec [CallStart; Fire 1%positive; ClickLap;
                         Fire 1%positive; ClickLap] initial).
Proof.
  assert (H : reachable (exec [CallStart; Fire 1%positive; ClickLap;
                               Fire 1%positive; ClickLap] initial))
    by (apply reachable_by_exec; [reflexivity | constructor]).
  split; [exact H|].
  exact (proj2 (laps_are_snapshots _ H)).
Defined.

(** X5. Started from a paused state the widget reaches, the stopwatch
    shows exactly [10 * n] ms more after [n] firings of its interval and
    nothing else about the state has moved; pausing then freezes the
    time, whatever fires afterwards. *)
Theorem ticks_accumulate (s : State) (n : nat)
    (Hs : widget_reachable s) (Hidle : isRunning s = false) :
  let running := exec (repeat (Fire (nextHandle s)) n) (handleStartPause s) in
  time running = time s + 10 * Z.of_nat n /\
  lapTimes running = lapTimes s /\
  isRunning running = true /\
  (forall hs : list handle,
      time (exec (map Fire hs) (handleStartPause running)) = time running) /\
  isRunning (handleStartPause running) = false.
Proof.
  intros running.
  assert (Hstart : handleStartPause s = startStopwatch s)
    by (unfold handleStartPause; now rewrite Hidle).
  assert (Hlive : is_live (nextHandle s) (handleStartPause s) = true).
  { rewrite Hstart. apply is_live_In. now left. }
  assert (Hrun : running =
    {| time := time s + 10 * Z.of_nat n; isRunning := true;
       lapTimes := lapTimes s; intervalRef := Some (nextHandle s);
       intervals := nextHandle s :: intervals s;
       nextHandle := Pos.succ (nextHandle s) |}).
  { unfold running. rewrite (exec_fire_repeat _ n _ Hlive), Hstart. reflexivity. }
  assert (Hreach : widget_reachable running).
  { unfold running. apply reachable_by_exec.
    - clear. induction n; [reflexivity | exact IHn].
    - now apply (reach_run from_widget s ClickStartPause). }
  pose proof (widget_tracked running Hreach) as Ht.
  assert (Hpause : handleStartPause running = pauseStopwatch running)
    by (unfold handleStartPause; now rewrite Hrun).
  rewrite Hpause.
  destruct (pause_idle running Ht) as [Hi _].
  split; [rewrite Hrun; reflexivity|].
  split; [rewrite Hrun; reflexivity|].
  split; [rewrite Hrun; reflexivity|].
  split.
  - intros hs. rewrite (exec_fire_idle hs _ Hi). apply pause_frame.
  - unfold pauseStopwatch. now destruct (intervalRef running).
Qed.

Lemma ticks_accumulate_witness :
  widget_reachable initial /\ isRunning initial = false /\
  time (exec (repeat (Fire 1%positive) 25) (handleStartPause initial)) = 250.
Proof.
  assert (H : widget_reachable initial) by constructor.
  split; [exact H|]. split; [reflexivity|].
  exact (proj1 (ticks_accumulate initial 25 H eq_refl)).
Defined.

(** ** How the handlers compose *)

Section Composition.

Lemma render_same (s s' : State) :
  time s' = time s -> isRunning s' = isRunning s -> lapTimes s' = lapTimes s ->
  render s' = render s.
Proof. intros Ht Hr Hl. unfold render. now rewrite Ht, Hr, Hl. Qed.

Lemma toggle_frame (s : State) :
  time (handleStartPause s) = time s /\
  lapTimes (handleStartPause s) = lapTimes s /\
  isRunning (handleStartPause s) = negb (isRunning s).
Proof.
  unfold handleStartPause. destruct (isRunning s) eqn:Hr.
  - destruct (pause_frame s) as (-> & -> & _). repeat split.
    unfold pauseStopwatch. now destruct (intervalRef s).
  - repeat split.
Qed.

Lemma readClock_reachable (s : State) :
  reachable s -> readClock (formatTime (time s)) = Some (time s).
Proof.
  intros Hs. rewrite (readClock_formatTime _ (time_nonneg s Hs)). f_equal.
  pose proof (time_grid s Hs). Z.div_mod_to_equations. lia.
Qed.

Lemma reachable_NoDup (s : State) : reachable s -> NoDup (intervals s).
Proof.
  intros Hs. pose proof (reachable_fresh s Hs) as Hf. revert Hf.
  induction Hs as [|s e Hs IH _]; intros Hf; [constructor|].
  pose proof (reachable_fresh s Hs) as [Hi _]. specialize (IH (reachable_fresh s Hs)).
  assert (Hp : NoDup (intervals (pauseStopwatch s))).
  { unfold pauseStopwatch. destruct (intervalRef s); cbn; [|exact IH].
    now apply NoDup_filter. }
  assert (Hst : NoDup (intervals (startStopwatch s))).
  { cbn. constructor; [|exact IH]. intros Hin. specialize (Hi _ Hin). lia. }
  destruct e; cbn [run]; auto.
  - unfold handleStartPause. destruct (isRunning s); auto.
  - destruct (recordLap_frame s) as (_ & _ & _ & -> & _). exact IH.
  - unfold resetStopwatch. destruct (intervalRef s); cbn; [|exact IH].
    now apply NoDup_filter.
  - destruct (tick_frame s h) as (_ & _ & _ & -> & _). exact IH.
Qed.

Lemma clear_removes_one (h : handle) (l : list handle) :
  NoDup l ->
  (List.length l <= S (List.length (filter (fun x => negb (Pos.eqb x h)) l)))%nat.
Proof.
  induction 1 as [|x l Hx Hnd IH]; [cbn; lia|].
  cbn [filter]. destruct (Pos.eqb_spec x h) as [->|Hne]; cbn [negb].
  - rewrite (filter_clear_absent h l Hx). apply Nat.le_refl.
  - cbn [List.length]. apply le_n_S, IH.
Qed.

Lemma exec_fire_live (l : list handle) :
  forall s, (forall h, In h l -> is_live h s = true) ->
    time (exec (map Fire l) s) = time s + 10 * Z.of_nat (List.length l).
Proof.
  induction l as [|h l IH]; intros s Hall; [cbn; lia|].
  cbn [map exec fold_left run]. fold (exec (map Fire l)).
  assert (Hl : is_live h s = true) by (apply Hall; now left).
  rewrite IH.
  - rewrite tick_time, Hl. cbn [List.length]. lia.
  - intros k Hk. unfold is_live.
    destruct (tick_frame s h) as (_ & _ & _ & -> & _).
    apply Hall. now right.
Qed.

End Composition.

(** X6. Clicking Start/Pause twice brings back the same view and flips
    the button label in between; the state the widget is in stays
    tracked.  From a paused state the ref and the interval table come
    back as they were, only the next handle has advanced; from a running
    state the old interval is retired and a new one, with the next
    handle, takes over. *)
Theorem toggle_twice (s : State) (Hs : widget_reachable s) :
  let s2 := handleStartPause (handleStartPause s) in
  render s2 = render s /\
  toggleLabel (render (handleStartPause s)) <> toggleLabel (render s) /\
  tracked s2 /\
  (isRunning s = false ->
     intervalRef s2 = intervalRef s /\ intervals s2 = intervals s /\
     nextHandle s2 = Pos.succ (nextHandle s)) /\
  (forall h, intervalRef s = Some h ->
     retired h s2 /\ intervalRef s2 = Some (nextHandle s) /\
     intervals s2 = [nextHandle s]).
Proof.
  intros s2.
  pose proof (widget_tracked s Hs) as Ht.
  pose proof (reachable_fresh s (widget_reachable_reachable s Hs)) as [_ Hfr].
  destruct (toggle_frame s) as (Ht1 & Hl1 & Hr1).
  destruct (toggle_frame (handleStartPause s)) as (Ht2 & Hl2 & Hr2).
  split; [|split; [|split; [|split]]].
  - apply render_same; unfold s2; try congruence.
    rewrite Hr2, Hr1. apply negb_involutive.
  - cbn [render toggleLabel]. rewrite Hr1. destruct (isRunning s); discriminate.
  - unfold s2. apply (tracked_run ClickStartPause); [reflexivity|].
    now apply (tracked_run ClickStartPause).
  - intros Hidle. unfold tracked in Ht.
    destruct (intervalRef s) as [h|] eqn:Href; destruct Ht as [Hr Hi];
      [congruence|].
    unfold s2, handleStartPause. rewrite Hidle. cbn.
    rewrite Hi, Pos.eqb_refl. cbn. auto.
  - intros h Hh. unfold tracked in Ht. rewrite Hh in Ht. destruct Ht as [Hr Hi].
    specialize (Hfr h Hh).
    unfold s2, handleStartPause, pauseStopwatch. rewrite Hr, Hh. cbn.
    unfold retired. cbn. repeat split.
    + lia.
    + rewrite Hi. cbn. rewrite Pos.eqb_refl. cbn. intros [Heq|[]]. lia.
    + rewrite Hi. cbn. now rewrite Pos.eqb_refl.
Qed.

Lemma toggle_twice_witness :
  widget_reachable (exec [ClickStartPause; Fire 1%positive] initial) /\
  render (handleStartPause (handleStartPause
            (exec [ClickStartPause; Fire 1%positive] initial))) =
  render (exec [ClickStartPause; Fire 1%positive] initial).
Proof.
  assert (H : widget_reachable (exec [ClickStartPause; Fire 1%positive] initial))
    by (apply reachable_by_exec; [reflexivity | constructor]).
  split; [exact H|].
  exact (proj1 (toggle_twice _ H)).
Defined.

(** X7. Pause, reset and the unmount cleanup are idempotent on every
    state; a reset absorbs a pause or a lap click on either side of it,
    a pause absorbs an earlier cleanup, and recording a lap right after a
    reset does nothing. *)
Theorem stop_operations_absorb (s : State) :
  pauseStopwatch (pauseStopwatch s) = pauseStopwatch s /\
  resetStopwatch (resetStopwatch s) = resetStopwatch s /\
  unmount (unmount s) = unmount s /\
  resetStopwatch (pauseStopwatch s) = resetStopwatch s /\
  pauseStopwatch (resetStopwatch s) = resetStopwatch s /\
  resetStopwatch (recordLap s) = resetStopwatch s /\
  recordLap (resetStopwatch s) = resetStopwatch s /\
  pauseStopwatch (unmount s) = pauseStopwatch s.
Proof.
  unfold pauseStopwatch, resetStopwatch, unmount, recordLap, clearInterval.
  destruct s as [t r l [h|] i n]; cbn;
    repeat split; try reflexivity;
    try (destruct (t >? 0); reflexivity);
    now rewrite filter_clear_twice.
Qed.

(** ** Buttons and the lap card *)

Section Rendering.

Lemma shown_rows_render (s : State) :
  shown_rows (render s) = map renderRow (lapTimes s).
Proof.
  unfold shown_rows, render. cbn [lapCard].
  destruct (lapTimes s); reflexivity.
Qed.

Lemma render_reset (s : State) : render (resetStopwatch s) = render initial.
Proof. unfold resetStopwatch. now destruct (intervalRef s). Qed.

End Rendering.

(** X8. In every reachable state the Lap button is disabled exactly when
    [recordLap] would do nothing: disabled means the click handler
    returns the state unchanged, enabled means it adds one lap. *)
Theorem lap_button_matches_guard (s : State) (Hs : reachable s) :
  (lapDisabled (render s) = true <-> recordLap s = s) /\
  (lapDisabled (render s) = false ->
   List.length (lapTimes (recordLap s)) = S (List.length (lapTimes s))).
Proof.
  pose proof (time_nonneg s Hs) as H0.
  cbn [render lapDisabled]. unfold recordLap.
  destruct (Z.eqb_spec (time s) 0) as [Hz|Hnz].
  - rewrite Hz. cbn. split; [tauto | discriminate].
  - assert (Hgt : (time s >? 0) = true) by (apply Z.gtb_lt; lia).
    rewrite Hgt. split; [|reflexivity].
    split; [discriminate|].
    intros Heq. apply (f_equal (fun x => List.length (lapTimes x))) in Heq.
    cbn in Heq. lia.
Qed.

Lemma lap_button_matches_guard_witness :
  reachable (exec [ClickStartPause; Fire 1%positive] initial) /\
  List.length (lapTimes (recordLap
    (exec [ClickStartPause; Fire 1%positive] initial))) = 1%nat.
Proof.
  assert (H : reachable (exec [ClickStartPause; Fire 1%positive] initial))
    by (apply reachable_by_exec; [reflexivity | constructor]).
  split; [exact H|].
  exact (proj2 (lap_button_matches_guard _ H) eq_refl).
Defined.

(** X9. After a reset the widget renders as it did at mount.  In a state
    the widget reaches, a disabled Reset button means a reset would leave
    the elapsed time and the laps as they are, and would leave the whole
    state as it is exactly when the stopwatch is not running; an enabled
    Reset button means a reset changes what is rendered. *)
Theorem reset_button_matches_effect (s : State) (Hs : widget_reachable s) :
  render (resetStopwatch s) = render initial /\
  (resetDisabled (render s) = true ->
     time (resetStopwatch s) = time s /\
     lapTimes (resetStopwatch s) = lapTimes s /\
     (resetStopwatch s = s <-> isRunning s = false)) /\
  (resetDisabled (render s) = false ->
     render (resetStopwatch s) <> render s).
Proof.
  pose proof (widget_tracked s Hs) as Ht.
  pose proof (readClock_reachable s (widget_reachable_reachable s Hs)) as Hread.
  split; [apply render_reset|]. split.
  - cbn [render resetDisabled]. intros Hd.
    apply andb_prop in Hd. destruct Hd as [Hz Hl].
    apply Z.eqb_eq in Hz. apply Nat.eqb_eq in Hl.
    assert (Hnil : lapTimes s = []) by (destruct (lapTimes s); [reflexivity | discriminate Hl]).
    assert (Hrt : time (resetStopwatch s) = 0 /\ lapTimes (resetStopwatch s) = [] /\
                  isRunning (resetStopwatch s) = false)
      by (unfold resetStopwatch; now destruct (intervalRef s)).
    destruct Hrt as (Hrt & Hrl & Hrr).
    split; [congruence|]. split; [congruence|]. split.
    + intros Heq. now rewrite <- Heq.
    + intros Hidle. unfold tracked in Ht. unfold resetStopwatch.
      destruct s as [t r l [h|] i n]; cbn in *; destruct Ht as [Hr Hi];
        [congruence | now subst].
  - intros He Heq. rewrite render_reset in Heq.
    cbn [render resetDisabled] in He.
    apply andb_false_iff in He. destruct He as [Hz | Hl].
    + apply Z.eqb_neq in Hz. apply Hz.
      apply (f_equal display) in Heq. cbn [render display initial time] in Heq.
      rewrite <- Heq in Hread.
      assert (H0 : readClock (formatTime 0) = Some 0) by (vm_compute; reflexivity).
      congruence.
    + apply Nat.eqb_neq in Hl.
      apply (f_equal lapCard) in Heq. cbn [render lapCard initial lapTimes] in Heq.
      destruct (lapTimes s); [contradiction | discriminate Heq].
Qed.

Lemma reset_button_matches_effect_witness :
  widget_reachable (run ClickStartPause initial) /\
  resetDisabled (render (run ClickStartPause initial)) = true /\
  time (resetStopwatch (run ClickStartPause initial)) =
    time (run ClickStartPause initial).
Proof.
  assert (H : widget_reachable (run ClickStartPause initial))
    by (repeat constructor).
  split; [exact H|]. split; [reflexivity|].
  exact (proj1 (proj1 (proj2 (reset_button_matches_effect _ H)) eq_refl)).
Defined.

(** X10. In every reachable state the lap card is rendered exactly when
    there are laps; it has one row per lap, its heading counts the rows,
    and from the top the rows carry the keys and labels [n, n-1, ..., 1],
    so no two rows share a React key. *)
Theorem lap_card_rows (s : State) (Hs : reachable s) :
  let n := List.length (lapTimes s) in
  (lapCard (render s) = None <-> lapTimes s = []) /\
  List.length (shown_rows (render s)) = n /\
  map rowKey (shown_rows (render s)) = countdown n /\
  NoDup (map rowKey (shown_rows (render s))) /\
  map rowLabel (shown_rows (render s)) =
    map (fun k => "Lap " ++ toString k) (countdown n) /\
  map rowTime (shown_rows (render s)) = map LapTime.time (lapTimes s) /\
  (forall c, lapCard (render s) = Some c ->
     heading c = "Lap Times (" ++ toString (Z.of_nat (List.length (rows c))) ++ ")").
Proof.
  intros n.
  pose proof (reachable_lap_ids s Hs) as Hids. unfold lap_ids in Hids. fold n in Hids.
  rewrite shown_rows_render.
  assert (Hkeys : map rowKey (map renderRow (lapTimes s)) = countdown n).
  { rewrite map_map. cbn [renderRow rowKey]. exact Hids. }
  split; [|split; [|split; [|split; [|split; [|split]]]]].
  - cbn [render lapCard]. destruct (lapTimes s); cbn; split; congruence.
  - apply length_map.
  - exact Hkeys.
  - rewrite Hkeys. apply NoDup_countdown.
  - rewrite <- Hids, !map_map. reflexivity.
  - rewrite map_map. reflexivity.
  - cbn [render lapCard]. intros c.
    destruct (0 <? List.length (lapTimes s))%nat; [|discriminate].
    intros [= <-]. cbn [heading rows]. now rewrite length_map.
Qed.

Lemma lap_card_rows_witness :
  reachable (exec [CallStart; Fire 1%positive; ClickLap; ClickLap] initial) /\
  map rowLabel (shown_rows (render
    (exec [CallStart; Fire 1%positive; ClickLap; ClickLap] initial))) =
  ["Lap 2"; "Lap 1"].
Proof.
  assert (H : reachable (exec [CallStart; Fire 1%positive; ClickLap; ClickLap] initial))
    by (apply reachable_by_exec; [reflexivity | constructor]).
  split; [exact H|].
  exact (proj1 (proj2 (proj2 (proj2 (proj2 (lap_card_rows _ H)))))).
Defined.

(** ** Intervals that pile up *)

(** X11. Each call of [startStopwatch] adds one live interval, and one
    round of firings advances the elapsed time by 10 ms for every live
    interval.  In every reachable state the live handles are distinct, a
    pause cancels at most one of them, and a start followed at once by a
    pause leaves the interval table as it was. *)
Theorem intervals_pile_up (s : State) (Hs : reachable s) :
  time (tick_round s) = time s + 10 * Z.of_nat (List.length (intervals s)) /\
  List.length (intervals (startStopwatch s)) = S (List.length (intervals s)) /\
  NoDup (intervals s) /\
  (List.length (intervals s) <= S (List.length (intervals (pauseStopwatch s))))%nat /\
  intervals (pauseStopwatch (startStopwatch s)) = intervals s.
Proof.
  pose proof (reachable_NoDup s Hs) as Hnd.
  pose proof (reachable_fresh s Hs) as [Hfr _].
  split; [|split; [reflexivity|split; [exact Hnd|split]]].
  - unfold tick_round. apply exec_fire_live.
    intros h Hh. now apply is_live_In.
  - unfold pauseStopwatch. destruct (intervalRef s); cbn.
    + now apply clear_removes_one.
    + apply Nat.le_succ_diag_r.
  - unfold pauseStopwatch, startStopwatch. cbn.
    rewrite Pos.eqb_refl. cbn. apply filter_clear_absent.
    intros Hin. specialize (Hfr _ Hin). lia.
Qed.

Lemma intervals_pile_up_witness :
  reachable (exec [CallStart; CallStart; CallStart] initial) /\
  time (tick_round (exec [CallStart; CallStart; CallStart] initial)) = 30.
Proof.
  assert (H : reachable (exec [CallStart; CallStart; CallStart] initial))
    by (apply reachable_by_exec; [reflexivity | constructor]).
  split; [exact H|].
  exact (proj1 (intervals_pile_up _ H)).
Defined.

(** ** Whole runs *)

(** X12. For a non-negative time the formatted text is at least eight
    characters long, and exactly eight as long as the time is below one
    hundred minutes; from there on the minutes field widens. *)
Theorem formatTime_width (t : Z) (Ht : 0 <= t) :
  (8 <= String.length (formatTime t))%nat /\
  (String.length (formatTime t) = 8%nat <-> t < 6000000).
Proof.
  destruct (formatTime_decompose t Ht)
    as (mm & ss & cs & -> & (_ & Hml & _ & Hshort & Hlong) & (_ & Hsl & _) & (_ & Hcl & _)).
  rewrite !length_append. cbn [String.length]. rewrite Hsl, Hcl.
  split; [lia|]. split.
  - intros Hlen.
    destruct (Z_lt_ge_dec (t / 60000) 100) as [Hlt|Hge].
    + Z.div_mod_to_equations. lia.
    + exfalso. specialize (Hlong ltac:(lia)).
      pose proof (toString_long (t / 60000) ltac:(lia)) as H3.
      rewrite <- Hlong in H3. lia.
  - intros Hlt.
    assert (Hm : t / 60000 < 100) by (Z.div_mod_to_equations; lia).
    rewrite (Hshort Hm). reflexivity.
Qed.

Lemma formatTime_width_witness :
  0 <= 5999990 /\ String.length (formatTime 5999990) = 8%nat.
Proof.
  assert (H : 0 <= 5999990) by lia.
  split; [exact H|].
  exact (proj2 (proj2 (formatTime_width 5999990 H)) ltac:(lia)).
Defined.

(** X13. Short of a reset, stored laps are never edited, reordered or
    dropped: after any run without a reset click the former lap list is
    still there, unchanged, below whatever laps the run added. *)
Theorem laps_only_grow (s : State) (es : list Event)
    (Hes : no_reset es = true) :
  exists added : list LapTime.t,
    lapTimes (exec es s) = (added ++ lapTimes s)%list /\
    (List.length added <= List.length es)%nat.
Proof.
  revert s Hes. induction es as [|e es IH]; intros s Hes.
  - exists []. split; [reflexivity | cbn; lia].
  - unfold no_reset in Hes. cbn [forallb] in Hes.
    apply andb_prop in Hes. destruct Hes as [He Hes].
    cbn [exec fold_left]. fold (exec es (run e s)).
    destruct (IH (run e s) Hes) as (added & Hadd & Hlen).
    destruct (run_laps e s) as [Hl | [(_ & _ & Hl) | (-> & _)]];
      [| | discriminate He]; rewrite Hl in Hadd.
    + exists added. split; [exact Hadd | cbn; lia].
    + eexists (added ++ [_])%list. split.
      * rewrite <- app_assoc. exact Hadd.
      * rewrite length_app. cbn. lia.
Qed.

Lemma laps_only_grow_witness :
  no_reset [ClickStartPause; Fire 2%positive; ClickLap; ClickStartPause] = true /\
  exists added : list LapTime.t,
    lapTimes (exec [ClickStartPause; Fire 2%positive; ClickLap; ClickStartPause]
                   (exec [ClickStartPause; Fire 1%positive; ClickLap; ClickStartPause]
                         initial)) =
    (added ++ lapTimes (exec [ClickStartPause; Fire 1%positive; ClickLap; ClickStartPause]
                             initial))%list.
Proof.
  split; [reflexivity|].
  destruct (laps_only_grow
              (exec [ClickStartPause; Fire 1%positive; ClickLap; ClickStartPause] initial)
              [ClickStartPause; Fire 2%positive; ClickLap; ClickStartPause]
              eq_refl) as (added & Hadd & _).
  exists added. exact Hadd.
Defined.

(** X14. Over any run from a state with non-negative elapsed time, the
    elapsed time grows by at most 10 ms per interval firing in the run,
    and without a reset click it never falls below where it started. *)
Theorem time_bounded_by_fires (s : State) (es : list Event)
    (H0 : 0 <= time s) :
  0 <= time (exec es s) <= time s + 10 * Z.of_nat (count_fires es) /\
  (no_reset es = true -> time s <= time (exec es s)).
Proof.
  revert s H0. induction es as [|e es IH]; intros s H0.
  - cbn. split; [lia | intros _; lia].
  - cbn [exec fold_left]. fold (exec es (run e s)).
    assert (Hstep : 0 <= time (run e s) /\
                    time (run e s) <= time s + (if is_fire e then 10 else 0) /\
                    (is_reset e = false -> time s <= time (run e s))).
    { destruct (run_time e s) as [H | [(h & -> & _ & H) | (-> & H)]];
        rewrite H; cbn [is_fire is_reset].
      - destruct (is_fire e); repeat split; lia.
      - repeat split; lia.
      - repeat split; intros; try lia; discriminate. }
    destruct Hstep as (Hnn & Hup & Hlow).
    destruct (IH (run e s) Hnn) as ((Hnn' & Hup') & Hlow').
    assert (Hcount : Z.of_nat (count_fires (e :: es)) =
                     (if is_fire e then 1 else 0) + Z.of_nat (count_fires es)).
    { unfold count_fires. cbn [filter]. destruct (is_fire e); cbn [List.length]; lia. }
    rewrite Hcount. split.
    + destruct (is_fire e); lia.
    + unfold no_reset. cbn [forallb]. intros Hnr.
      apply andb_prop in Hnr. destruct Hnr as [He Hes].
      apply negb_true_iff in He.
      specialize (Hlow He). specialize (Hlow' Hes). lia.
Qed.

Lemma time_bounded_by_fires_witness :
  0 <= time initial /\
  time (exec [CallStart; CallStart; Fire 1%positive; Fire 2%positive; Fire 3%positive]
             initial) <= 30.
Proof.
  assert (H : 0 <= time initial) by (cbn; lia).
  split; [exact H|].
  exact (proj2 (proj1 (time_bounded_by_fires initial
    [CallStart; CallStart; Fire 1%positive; Fire 2%positive; Fire 3%positive] H))).
Defined.
